(** * QR Lab: payload formatters and logo compositor of [app_qr_lab.py]

    A shallow embedding of the helper functions of [app_qr_lab.py]
    ([build_wifi_payload], [build_mailto], [build_sms], [build_tel],
    [build_geo], [_fmt_dt], [build_vevent], [build_vcard]) and of the logo
    overlay block of the script, followed by the properties proved of them.

    Text model.  A Python [str] is a [string] of the Standard Library, one
    [ascii] per character.  [upper] and [strip] follow Python on the ASCII
    range; the Unicode case and white-space tables beyond it are not part of
    the source and are not modelled.

    Number model.  A Python [int] is a [Z]; a Python [float] is a binary64
    number of [SpecFloat], with its operations rounded to nearest even.  The
    half-integers of the circular mask are rationals. *)

From Stdlib Require Import String Ascii List Bool Arith ZArith Lia.
From Stdlib Require Import QArith Qminmax Qround.
From Stdlib Require Import Floats.SpecFloat.
Import ListNotations.

Close Scope Q_scope.
Local Open Scope string_scope.

(* ================================================================== *)
(** ** Python values and [str] methods used by the source *)
(* ================================================================== *)

Module Py.

(** The arguments the formatters guard with [x or ''] may be [None]. *)
Inductive value : Type :=
  | PNone
  | PStr (s : string).

(** Truth value of an object: [None] and the empty string are falsy. *)
Definition truthy (v : value) : bool :=
  match v with
  | PNone => false
  | PStr EmptyString => false
  | PStr (String _ _) => true
  end.

(** [v or d]: [v] when it is truthy, else [d]. *)
Definition py_or (v d : value) : value := if truthy v then v else d.

(** [v or d] where [d] is a string literal: the result is always a [str]. *)
Definition or_str (v : value) (d : string) : string :=
  match v with
  | PStr (String c s) => String c s
  | _ => d
  end.

(** Truth value of a [str]: [if s:]. *)
Definition nonempty (s : string) : bool :=
  match s with
  | EmptyString => false
  | String _ _ => true
  end.

Definition backslash : ascii := "092"%char.
Definition LF : ascii := "010"%char.

(** [s.replace(old, new)] with [old] non-empty: occurrences are found from the
    left and do not overlap.  [skip] counts the characters of a match that are
    still to be dropped. *)
Fixpoint replace_from (old new : string) (skip : nat) (s : string) : string :=
  match s with
  | EmptyString => EmptyString
  | String c s' =>
      match skip with
      | S k => replace_from old new k s'
      | O =>
          if String.prefix old s
          then new ++ replace_from old new (String.length old - 1) s'
          else String c (replace_from old new 0 s')
      end
  end.

(** [s.replace('', new)]: [new] goes before every character and at the end. *)
Fixpoint replace_empty (new s : string) : string :=
  match s with
  | EmptyString => new
  | String c s' => new ++ String c (replace_empty new s')
  end.

Definition replace (old new s : string) : string :=
  match old with
  | EmptyString => replace_empty new s
  | String _ _ => replace_from old new 0 s
  end.

(** The method call [recv.replace(old, new)] on an object: [None] has no such
    attribute, and the call raises [AttributeError], rendered by [None]. *)
Definition method_replace (recv : value) (old new : string) : option string :=
  match recv with
  | PStr s => Some (replace old new s)
  | PNone => None
  end.

(** [c.upper()] on the ASCII range. *)
Definition upper_char (c : ascii) : ascii :=
  let n := nat_of_ascii c in
  if ((97 <=? n) && (n <=? 122))%nat then ascii_of_nat (n - 32) else c.

Fixpoint upper (s : string) : string :=
  match s with
  | EmptyString => EmptyString
  | String c s' => String (upper_char c) (upper s')
  end.

(** [c.isspace()] on the ASCII range: TAB, LF, VT, FF, CR, FS, GS, RS, US
    and the space. *)
Definition isspace (c : ascii) : bool :=
  let n := nat_of_ascii c in
  (((9 <=? n) && (n <=? 13)) || ((28 <=? n) && (n <=? 32)))%nat.

Fixpoint lstrip (s : string) : string :=
  match s with
  | EmptyString => EmptyString
  | String c s' => if isspace c then lstrip s' else s
  end.

Fixpoint rstrip (s : string) : string :=
  match s with
  | EmptyString => EmptyString
  | String c s' =>
      match rstrip s' with
      | EmptyString => if isspace c then EmptyString else String c EmptyString
      | r => String c r
      end
  end.

(** [s.strip()] *)
Definition strip (s : string) : string := rstrip (lstrip s).

(** [sep.join(lines)] *)
Definition join (sep : string) (lines : list string) : string :=
  String.concat sep lines.

(** [s.count(c)] for a one-character [c]. *)
Fixpoint count (c : ascii) (s : string) : nat :=
  match s with
  | EmptyString => 0
  | String d s' => (if Ascii.eqb c d then 1 else 0) + count c s'
  end.

(** Character-wise substitution: what a chain of one-character [replace]
    calls amounts to. *)
Fixpoint expand (f : ascii -> string) (s : string) : string :=
  match s with
  | EmptyString => EmptyString
  | String c s' => f c ++ expand f s'
  end.

(** [x in {...}] for a set of string literals. *)
Definition in_set (x : string) (xs : list string) : bool :=
  existsb (String.eqb x) xs.

End Py.

(* ================================================================== *)
(** ** Helpers to build payloads *)
(* ================================================================== *)

Module Formatter.
Import Py.

(** The nested helper [esc] of [build_wifi_payload]. *)
Definition esc (s : value) : string :=
  replace (String "," EmptyString) (String backslash ",")
    (replace (String ";" EmptyString) (String backslash ";")
       (replace (String backslash EmptyString)
                (String backslash (String backslash EmptyString))
                (or_str s EmptyString))).

(** What [esc] does to one character. *)
Definition esc_char (c : ascii) : string :=
  if Ascii.eqb c backslash then String backslash (String backslash EmptyString)
  else if Ascii.eqb c ";" then String backslash ";"
  else if Ascii.eqb c "," then String backslash ","
  else String c EmptyString.

(** The inverse a reader of the payload applies to an escaped field: a
    backslash quotes the character after it.  It is not part of the source;
    the round-trip property of the specification is stated with it. *)
Fixpoint unesc (s : string) : string :=
  match s with
  | EmptyString => EmptyString
  | String c t =>
      if Ascii.eqb c backslash
      then match t with
           | EmptyString => String c EmptyString
           | String d u => String d (unesc u)
           end
      else String c (unesc t)
  end.

Definition wifi_auth (auth : value) : string :=
  let auth := upper (or_str auth "nopass") in
  if negb (in_set auth ["WEP"; "WPA"; "WPA2"; "NOPASS"]) then "WPA" else auth.

(** The text after [T:] in the payload. *)
Definition wifi_token (auth : value) : string :=
  let auth := wifi_auth auth in
  if String.eqb auth "NOPASS" then "nopass" else auth.

Definition build_wifi_payload
    (ssid password auth : value) (hidden : bool) : string :=
  let hidden_flag := if hidden then "true" else "false" in
  "WIFI:T:" ++ wifi_token auth ++ ";S:" ++ esc ssid ++ ";P:" ++ esc password
    ++ ";H:" ++ hidden_flag ++ ";;".

(** [urllib.parse.quote] and the text of a [float] in an f-string field come
    from Python's library, not from the source: the formatters take them as
    parameters. *)
Section Library.

Variable quote : string -> string.
Variable float : Type.
Variable float_str : float -> string.

Definition build_mailto (email subject body : string) : string :=
  let qs : list string := [] in
  let qs := if nonempty subject then List.app qs ["subject=" ++ quote subject] else qs in
  let qs := if nonempty body then List.app qs ["body=" ++ quote body] else qs in
  "mailto:" ++ email
    ++ (match qs with [] => EmptyString | _ :: _ => "?" ++ join "&" qs end).

Definition build_geo (lat lon : float) (label : string) : string :=
  let payload := "geo:" ++ float_str lat ++ "," ++ float_str lon in
  if nonempty label then payload ++ "?q=" ++ quote label else payload.

End Library.

Definition build_sms (number : string) (message : value) : string :=
  "SMSTO:" ++ number ++ ":" ++ or_str message EmptyString.

Definition build_tel (number : string) : string :=
  "tel:" ++ number.

(** A [datetime] without time zone, as [datetime.combine(d, t)] builds it. *)
Record datetime : Type := mk_datetime {
  year : nat; month : nat; day : nat;
  hour : nat; minute : nat; second : nat
}.

Definition digit (n : nat) : ascii := ascii_of_nat (48 + n mod 10).

Definition pad2 (n : nat) : string :=
  String (digit (n / 10)) (String (digit n) EmptyString).

Definition pad4 (n : nat) : string :=
  String (digit (n / 1000)) (String (digit (n / 100)) (pad2 n)).

(** [dt.strftime("%Y%m%dT%H%M%S")], for the years 1000 to 9999 that every
    platform renders with four digits. *)
Definition _fmt_dt (dt : datetime) : string :=
  pad4 (year dt) ++ pad2 (month dt) ++ pad2 (day dt) ++ "T"
    ++ pad2 (hour dt) ++ pad2 (minute dt) ++ pad2 (second dt).

(** The two string literals of the [replace] call in [build_vevent], written
    ['\\n'] and ['\\\\n'] in the source: a backslash followed by [n], and two
    backslashes followed by [n]. *)
Definition bs_n : string := String backslash "n".
Definition bs_bs_n : string := String backslash (String backslash "n").

(** The [DESCRIPTION] element of [lines] in [build_vevent]. *)
Definition description_line (desc : value) : string :=
  "DESCRIPTION:" ++ replace bs_n bs_bs_n (or_str desc EmptyString).

Definition vevent_lines
    (summary : value) (start_dt end_dt : datetime) (location desc : value)
    : list string :=
  [ "BEGIN:VCALENDAR";
    "VERSION:2.0";
    "PRODID:-//QR Lab//EN";
    "BEGIN:VEVENT";
    "SUMMARY:" ++ or_str summary EmptyString;
    "DTSTART:" ++ _fmt_dt start_dt;
    "DTEND:" ++ _fmt_dt end_dt;
    "LOCATION:" ++ or_str location EmptyString;
    description_line desc;
    "END:VEVENT";
    "END:VCALENDAR" ].

Definition build_vevent
    (summary : value) (start_dt end_dt : datetime) (location desc : value)
    : string :=
  join (String LF EmptyString) (vevent_lines summary start_dt end_dt location desc).

(** [if field: lines.append(prefix + field)] *)
Definition append_if (lines : list string) (label field : string) : list string :=
  if nonempty field then List.app lines [label ++ field] else lines.

(** The optional line of a field: present iff the field is non-empty. *)
Definition optional_line (label field : string) : list string :=
  if nonempty field then [label ++ field] else [].

Definition vcard_lines
    (given family phone email org title url : string) : list string :=
  let lines :=
    [ "BEGIN:VCARD";
      "VERSION:3.0";
      "N:" ++ family ++ ";" ++ given ++ ";;;";
      strip ("FN:" ++ given ++ " " ++ family) ] in
  let lines := append_if lines "ORG:" org in
  let lines := append_if lines "TITLE:" title in
  let lines := append_if lines "TEL;TYPE=CELL:" phone in
  let lines := append_if lines "EMAIL;TYPE=INTERNET:" email in
  let lines := append_if lines "URL:" url in
  List.app lines ["END:VCARD"].

Definition build_vcard
    (given family phone email org title url : string) : string :=
  join (String LF EmptyString)
       (vcard_lines given family phone email org title url).

End Formatter.

(* ================================================================== *)
(** ** Logo overlay *)
(* ================================================================== *)

Module Compositor.

(** *** Exceptions *)

Inductive exn : Type :=
  | ZeroDivisionError
  | ValueError
  | OverflowError
  | ImportError
  | LibraryError (what : string).

(** A statement either completes with a value or raises. *)
Inductive result (A : Type) : Type :=
  | Ok (a : A)
  | Raise (e : exn).
Arguments Ok {A} a.
Arguments Raise {A} e.

Definition bind {A B : Type} (r : result A) (k : A -> result B) : result B :=
  match r with
  | Ok a => k a
  | Raise e => Raise e
  end.

Notation "x <- r ;; k" := (bind r (fun x => k))
  (at level 61, r at next level, right associativity).
Notation "' pat <- r ;; k" := (bind r (fun x => match x with pat => k end))
  (at level 61, pat pattern, r at next level, right associativity).

(** *** Python floats: IEEE 754 binary64 *)

Definition float : Type := spec_float.
Definition prec : Z := 53.
Definition emax : Z := 1024.

(** The conversion of an [int] operand in a mixed [int]/[float] operation,
    rounded to nearest even. *)
Definition float_of_int (z : Z) : float := binary_normalize prec emax z 0 false.

Definition fmul : float -> float -> float := SFmul prec emax.
Definition fdiv : float -> float -> float := SFdiv prec emax.

(** [a / b] on two [int]s, for operands below [2^53], which convert exactly. *)
Definition truediv (a b : Z) : result float :=
  if (b =? 0)%Z then Raise ZeroDivisionError
  else Ok (fdiv (float_of_int a) (float_of_int b)).

(** [int(x)]: truncation towards zero. *)
Definition py_int (x : float) : result Z :=
  match x with
  | S754_zero _ => Ok 0%Z
  | S754_finite s m e =>
      let a := (if 0 <=? e then Zpos m * 2 ^ e else Zpos m / 2 ^ (- e))%Z in
      Ok (if s then (- a)%Z else a)
  | S754_infinity _ => Raise OverflowError
  | S754_nan => Raise ValueError
  end.



(** *** Rasters *)

Record pixel : Type := mk_pixel { red : Z; green : Z; blue : Z; alpha : Z }.

(** An RGBA image: its size and its rows of pixels, top row first. *)
Record image : Type := mk_image {
  width : nat;
  height : nat;
  rows : list (list pixel)
}.

Fixpoint zip_with {A B C : Type} (f : A -> B -> C)
    (xs : list A) (ys : list B) : list C :=
  match xs, ys with
  | x :: xs', y :: ys' => f x y :: zip_with f xs' ys'
  | _, _ => []
  end.

Definition set_alpha (p : pixel) (a : Z) : pixel :=
  mk_pixel (red p) (green p) (blue p) a.

(** [img.putalpha(mask)] with a mask of the size of [img]. *)
Definition putalpha (img : image) (mask : list (list Z)) : image :=
  mk_image (width img) (height img)
           (zip_with (zip_with set_alpha) (rows img) mask).

(** *** The circular mask

    [centerx], [centery] and [radius] are floats in the source; they are
    halves of integers, and so are the differences whose squares are compared:
    below [2^26] pixels a side binary64 computes all of them without rounding,
    and they are modelled by the rationals they are. *)

Definition centerx (w : nat) : Q := (inject_Z (Z.of_nat w - 1) / 2)%Q.
Definition centery (h : nat) : Q := (inject_Z (Z.of_nat h - 1) / 2)%Q.
Definition radius (w h : nat) : Q := Qmin (centerx w) (centery h).

(** The entry of [circle] in row [y], column [x]. *)
Definition circle (w h x y : nat) : bool :=
  Qle_bool ((inject_Z (Z.of_nat x) - centerx w) ^ 2
            + (inject_Z (Z.of_nat y) - centery h) ^ 2)%Q
           (radius w h ^ 2)%Q.

(** [mask_np] after [mask_np[circle] = 255]: [h] rows of [w] entries. *)
Definition mask_np (w h : nat) : list (list Z) :=
  map (fun y => map (fun x => if circle w h x y then 255%Z else 0%Z) (seq 0 w))
      (seq 0 h).

(** The entry of the mask in column [x] of row [y]. *)
Definition mask_at (mask : list (list Z)) (x y : nat) : option Z :=
  match nth_error mask y with
  | Some row => nth_error row x
  | None => None
  end.


(** *** The target size of the logo *)

(** [lw = int(preview_img.width * opts["logo_scale"])] *)
Definition target_width (base_width : Z) (logo_scale : float) : result Z :=
  py_int (fmul (float_of_int base_width) logo_scale).

(** [lh = int(lw * (logo_img.height / logo_img.width))] *)
Definition target_height (lw logo_width logo_height : Z) : result Z :=
  ratio <- truediv logo_height logo_width ;;
  py_int (fmul (float_of_int lw) ratio).

Definition resize_target
    (base_width : Z) (logo_scale : float) (logo_width logo_height : Z)
    : result (Z * Z) :=
  lw <- target_width base_width logo_scale ;;
  lh <- target_height lw logo_width logo_height ;;
  Ok (lw, lh).

(** *** The overlay block of the script *)

Inductive message : Type :=
  | Info (text : string).

Definition overlay_failed : message :=
  Info "Logo overlay failed; continuing without logo.".

(** Pillow and numpy are not part of the source.  Each call into them either
    returns or raises: [image_open] is [Image.open(file).convert("RGBA")],
    [import_numpy] the numpy and Pillow calls that build the mask image,
    [resize] the Lanczos resize.  [alpha_composite] returns the composited
    base image, and when it raises the base image is as it was before the
    call. *)
Section Overlay.

Variable upload : Type.
Variable image_open : upload -> result image.
Variable import_numpy : result unit.
Variable resize : image -> Z * Z -> result image.
Variable alpha_composite : image -> image -> Z * Z -> result image.

Record options : Type := mk_options {
  logo : option upload;
  logo_scale : float;
  round_logo : bool
}.

(** The body of [if opts["round_logo"]:]. *)
Definition round_mask (logo_img : image) : result image :=
  _ <- import_numpy ;;
  Ok (putalpha logo_img (mask_np (width logo_img) (height logo_img))).

(** The optional round mask. *)
Definition masked (opts : options) (logo_img : image) : result image :=
  if round_logo opts then round_mask logo_img else Ok logo_img.

(** [lw] and [lh] for a base image and a logo. *)
Definition logo_target (opts : options) (preview_img logo_img : image)
    : result (Z * Z) :=
  resize_target (Z.of_nat (width preview_img)) (logo_scale opts)
    (Z.of_nat (width logo_img)) (Z.of_nat (height logo_img)).

(** The paste position: the logo centred on the base image. *)
Definition paste_at (preview_img logo_img : image) : Z * Z :=
  (((Z.of_nat (width preview_img) - Z.of_nat (width logo_img)) / 2)%Z,
   ((Z.of_nat (height preview_img) - Z.of_nat (height logo_img)) / 2)%Z).

(** The body of the [try]. *)
Definition logo_steps (opts : options) (preview_img : image) (file : upload)
    : result image :=
  logo_img <- image_open file ;;
  logo_img <- masked opts logo_img ;;
  size <- logo_target opts preview_img logo_img ;;
  logo_img <- resize logo_img size ;;
  alpha_composite preview_img logo_img (paste_at preview_img logo_img).

(** The step of the [try] body that raises [e]: opening and decoding the
    file, masking, computing the target size, resizing, compositing. *)
Inductive logo_failure (opts : options) (preview_img : image) (file : upload)
    (e : exn) : Prop :=
  | decoding_fails :
      image_open file = Raise e ->
      logo_failure opts preview_img file e
  | masking_fails (opened : image) :
      image_open file = Ok opened ->
      masked opts opened = Raise e ->
      logo_failure opts preview_img file e
  | sizing_fails (opened logo_img : image) :
      image_open file = Ok opened ->
      masked opts opened = Ok logo_img ->
      logo_target opts preview_img logo_img = Raise e ->
      logo_failure opts preview_img file e
  | resizing_fails (opened logo_img : image) (size : Z * Z) :
      image_open file = Ok opened ->
      masked opts opened = Ok logo_img ->
      logo_target opts preview_img logo_img = Ok size ->
      resize logo_img size = Raise e ->
      logo_failure opts preview_img file e
  | compositing_fails (opened logo_img resized : image) (size : Z * Z) :
      image_open file = Ok opened ->
      masked opts opened = Ok logo_img ->
      logo_target opts preview_img logo_img = Ok size ->
      resize logo_img size = Ok resized ->
      alpha_composite preview_img resized (paste_at preview_img resized)
      = Raise e ->
      logo_failure opts preview_img file e.

(** [if opts["logo"] is not None: try: ... except Exception: st.info(...)]:
    the preview image after the block and the messages shown. *)
Definition overlay (opts : options) (preview_img : image)
    : image * list message :=
  match logo opts with
  | None => (preview_img, [])
  | Some file =>
      match logo_steps opts preview_img file with
      | Ok composited => (composited, [])
      | Raise _ => (preview_img, [overlay_failed])
      end
  end.

End Overlay.

(** *** Sample data *)

(** An opaque red square of side 3. *)
Definition opaque_red : pixel := mk_pixel 255 0 0 255.
Definition red3 : image :=
  mk_image 3 3 (repeat (repeat opaque_red 3) 3).

(** A decoder that rejects every file. *)
Definition reject_all (file : string) : result image :=
  Raise (LibraryError "cannot identify image file").

Arguments mk_options {upload} logo logo_scale round_logo.
Arguments logo {upload} o.
Arguments logo_scale {upload} o.
Arguments round_logo {upload} o.
Arguments masked {upload} import_numpy opts logo_img.
Arguments logo_target {upload} opts preview_img logo_img.
Arguments logo_steps {upload} image_open import_numpy resize alpha_composite
  opts preview_img file.
Arguments logo_failure {upload} image_open import_numpy resize alpha_composite
  opts preview_img file e.
Arguments overlay {upload} image_open import_numpy resize alpha_composite
  opts preview_img.

End Compositor.

(* ================================================================== *)
(** ** The script around the helpers: content builder and generation *)
(* ================================================================== *)

Module Script.
Import Py Formatter.

(** *** Content builder *)

(** The options of the authentication select box and the dict that maps
    them to the [auth] argument. *)
Definition auth_options : list string := ["WPA/WPA2"; "WEP"; "No password"].

Definition auth_codes : list (string * string) :=
  [("WPA/WPA2", "WPA"); ("WEP", "WEP"); ("No password", "NOPASS")].

(** [d[key]]: [None] stands for [KeyError]. *)
Fixpoint dict_get (d : list (string * string)) (key : string) : option string :=
  match d with
  | [] => None
  | (k, v) :: d' => if String.eqb k key then Some v else dict_get d' key
  end.

(** The values of [st.date_input] and [st.time_input]. *)
Record date : Type := mk_date { date_year : nat; date_month : nat; date_day : nat }.
Record dtime : Type := mk_dtime { time_hour : nat; time_minute : nat; time_second : nat }.

(** [datetime.combine(d, t)] *)
Definition combine (d : date) (t : dtime) : datetime :=
  mk_datetime (date_year d) (date_month d) (date_day d)
              (time_hour t) (time_minute t) (time_second t).

Section Builder.

Variable quote : string -> string.
Variable number : Type.
Variable number_str : number -> string.

(** The selected content type with the values of its widgets. *)
Inductive content : Type :=
  | UrlText (text : string)
  | WiFi (ssid auth password : string) (hidden : bool)
  | Email (to subject body : string)
  | SMS (phone message : string)
  | Phone (phone : string)
  | Geo (lat lon : number) (label : string)
  | VCard (given family phone email org title url : string)
  | CalendarEvent (summary : string) (d_start : date) (t_start : dtime)
      (d_end : date) (t_end : dtime) (location desc : string).

(** The Wi-Fi branch: the password box is not shown for [No password], and
    the select box value is looked up in [auth_codes]. *)
Definition wifi_branch (ssid auth password : string) (hidden : bool)
    : option string :=
  let password := if String.eqb auth "No password" then EmptyString else password in
  match dict_get auth_codes auth with
  | Some code =>
      Some (build_wifi_payload (PStr ssid) (PStr password) (PStr code) hidden)
  | None => None
  end.

(** [payload] after the [if data_type == ...] chain; [None] stands for the
    [KeyError] of the Wi-Fi branch. *)
Definition content_payload (c : content) : option string :=
  match c with
  | UrlText text => Some text
  | WiFi ssid auth password hidden => wifi_branch ssid auth password hidden
  | Email to subject body => Some (build_mailto quote to subject body)
  | SMS phone message => Some (build_sms phone (PStr message))
  | Phone phone => Some (build_tel phone)
  | Geo lat lon label => Some (build_geo quote number number_str lat lon label)
  | VCard given family phone email org title url =>
      Some (build_vcard given family phone email org title url)
  | CalendarEvent summary d_start t_start d_end t_end location desc =>
      Some (build_vevent (PStr summary) (combine d_start t_start)
              (combine d_end t_end) (PStr location) (PStr desc))
  end.

End Builder.

Arguments UrlText {number} text.
Arguments WiFi {number} ssid auth password hidden.
Arguments Email {number} to subject body.
Arguments SMS {number} phone message.
Arguments Phone {number} phone.
Arguments Geo {number} lat lon label.
Arguments VCard {number} given family phone email org title url.
Arguments CalendarEvent {number} summary d_start t_start d_end t_end
  location desc.
Arguments content_payload quote {number} number_str c.

(** *** Measures used in the statements *)

(** The number of characters of a field that [esc] quotes. *)
Definition specials (s : string) : nat :=
  count backslash s + count ";" s + count "," s.

(** *** The Generate button *)

(** [s.isspace()] for every character of [s]; true of the empty string. *)
Fixpoint all_space (s : string) : bool :=
  match s with
  | EmptyString => true
  | String c s' => isspace c && all_space s'
  end.

(** [payload and str(payload).strip()] as a truth value. *)
Definition has_content (payload : value) : bool :=
  match payload with
  | PNone => false
  | PStr s => nonempty s && nonempty (strip s)
  end.

Inductive notice : Type :=
  | Warning (text : string)
  | Success (text : string).

Section Generate.

(** The dict stored under ["qr_opts"]. *)
Variable options : Type.

(** The two keys the script keeps in [st.session_state]. *)
Record session : Type := mk_session {
  qr_payload : option string;
  qr_opts : option options
}.

Definition empty_session : session := mk_session None None.

(** The body of [if st.button("Generate QR code", ...)]: the session state
    after it, the notices shown, and whether the script is rerun. *)
Definition generate (payload : value) (opts : options) (st : session)
    : session * list notice * bool :=
  match payload with
  | PStr s =>
      if has_content payload
      then (mk_session (Some s) (Some opts),
            [Success "QR generated below."], true)
      else (st, [Warning "Please enter content to encode."], false)
  | PNone => (st, [Warning "Please enter content to encode."], false)
  end.

(** The session state after a run of clicks on the button, each with the
    payload and the options of that moment. *)
Fixpoint clicks (events : list (value * options)) (st : session) : session :=
  match events with
  | [] => st
  | (payload, opts) :: rest =>
      clicks rest (fst (fst (generate payload opts st)))
  end.

(** What the preview block reads:
    [if "qr_payload" in st.session_state: payload = ...; opts = ...]. *)
Inductive stored : Type :=
  | NothingStored
  | Stored (payload : string) (opts : options)
  | KeyError.

Definition read_session (st : session) : stored :=
  match qr_payload st with
  | None => NothingStored
  | Some payload =>
      match qr_opts st with
      | Some opts => Stored payload opts
      | None => KeyError
      end
  end.

(** The last click whose payload had content, if any. *)
Fixpoint last_accepted (events : list (value * options))
    (found : option (string * options)) : option (string * options) :=
  match events with
  | [] => found
  | (PStr s, opts) :: rest =>
      last_accepted rest (if has_content (PStr s) then Some (s, opts) else found)
  | (PNone, _) :: rest => last_accepted rest found
  end.

(** The reading of a session that holds the pair [found]. *)
Definition holds (found : option (string * options)) : stored :=
  match found with
  | Some (payload, opts) => Stored payload opts
  | None => NothingStored
  end.

End Generate.

Arguments mk_session {options} qr_payload qr_opts.
Arguments qr_payload {options} s.
Arguments qr_opts {options} s.
Arguments empty_session {options}.
Arguments generate {options} payload opts st.
Arguments clicks {options} events st.
Arguments NothingStored {options}.
Arguments Stored {options} payload opts.
Arguments KeyError {options}.
Arguments read_session {options} st.
Arguments last_accepted {options} events found.
Arguments holds {options} found.

End Script.

(* ================================================================== *)
(** ** The sidebar: the logo size slider *)
(* ================================================================== *)

Module Sidebar.
Import Compositor.

(** [logo_scale = st.slider(..., 10, 40, 22) / 100.0] for the slider value
    [k]. *)
Definition logo_scale_of (k : Z) : float :=
  fdiv (float_of_int k) (float_of_int 100).

(** The float 1.0: mantissa [2^52], exponent [-52]. *)
Definition one : float := S754_finite false 4503599627370496 (-52).

(** The integers [lo], [lo + 1], ..., [lo + n - 1]. *)
Definition zrange (lo : Z) (n : nat) : list Z :=
  map (fun i => (lo + Z.of_nat i)%Z) (seq 0 n).

(** The target width for the fraction [f] of the slider value [k] is the
    hundredth part of [width * k], rounded down, or one less, and is smaller
    than the width. *)
Definition width_near (f : float) (k width : Z) : bool :=
  match target_width width f with
  | Ok lw =>
      ((width * k / 100 - 1 <=? lw) && (lw <=? width * k / 100)
       && (0 <=? lw) && (lw <? width))%Z
  | Raise _ => false
  end.

Definition all_near (widths : list Z) (k : Z) : bool :=
  let f := logo_scale_of k in forallb (width_near f k) widths.

End Sidebar.

(* ================================================================== *)
(** ** Facts about the [str] methods *)
(* ================================================================== *)

Module PyFacts.
Import Py.

Lemma append_nil_r (s : string) : s ++ EmptyString = s.
Proof. induction s as [|c s IH]; simpl; [reflexivity | now rewrite IH]. Qed.

Lemma append_assoc (a b c : string) : (a ++ b) ++ c = a ++ (b ++ c).
Proof. induction a as [|x a IH]; simpl; [reflexivity | now rewrite IH]. Qed.

Lemma prefix_nil (s : string) : String.prefix EmptyString s = true.
Proof. now destruct s. Qed.

Lemma or_str_PStr (s : string) : or_str (PStr s) EmptyString = s.
Proof. now destruct s. Qed.

Lemma count_app (c : ascii) (a b : string) :
  count c (a ++ b) = count c a + count c b.
Proof. induction a as [|x a IH]; simpl; [reflexivity | rewrite IH; lia]. Qed.

(** A one-character [replace] acts on each character by itself. *)
Lemma replace_char (a : ascii) (new s : string) :
  replace (String a EmptyString) new s
  = expand (fun c => if Ascii.eqb a c then new else String c EmptyString) s.
Proof.
  unfold replace.
  induction s as [|c s IH]; [reflexivity|].
  cbn [replace_from expand String.prefix String.length Nat.sub].
  destruct (ascii_dec a c) as [->|Hne].
  - rewrite prefix_nil, Ascii.eqb_refl, IH. reflexivity.
  - apply Ascii.eqb_neq in Hne. rewrite Hne, IH. reflexivity.
Qed.

Lemma expand_app (f : ascii -> string) (a b : string) :
  expand f (a ++ b) = expand f a ++ expand f b.
Proof.
  induction a as [|x a IH]; simpl; [reflexivity|].
  now rewrite IH, append_assoc.
Qed.

Lemma expand_expand (f g : ascii -> string) (s : string) :
  expand f (expand g s) = expand (fun c => expand f (g c)) s.
Proof.
  induction s as [|c s IH]; simpl; [reflexivity|].
  now rewrite expand_app, IH.
Qed.

Lemma expand_ext (f g : ascii -> string) (s : string) :
  (forall c, f c = g c) -> expand f s = expand g s.
Proof.
  intros E. induction s as [|c s IH]; simpl; [reflexivity|].
  now rewrite E, IH.
Qed.

End PyFacts.

(* ================================================================== *)
(** ** Properties of the payload formatters *)
(* ================================================================== *)

Module FormatterSpec.
Import Py PyFacts Formatter.

(** *** Wi-Fi: escaping *)

(** The three chained [replace] calls of [esc] rewrite each character on its
    own: the later passes leave the backslashes the earlier ones wrote. *)
Lemma esc_by_char (s : string) : esc (PStr s) = expand esc_char s.
Proof.
  unfold esc. rewrite or_str_PStr, !replace_char, !expand_expand.
  apply expand_ext. intros c. unfold esc_char.
  destruct (Ascii.eqb_spec c backslash) as [->|Hb]; [reflexivity|].
  assert (Ascii.eqb backslash c = false) as ->
    by (apply Ascii.eqb_neq; congruence).
  cbn [expand]. rewrite append_nil_r.
  destruct (Ascii.eqb_spec c ";") as [->|Hs]; [reflexivity|].
  assert (Ascii.eqb ";" c = false) as -> by (apply Ascii.eqb_neq; congruence).
  cbn [expand]. rewrite append_nil_r.
  destruct (Ascii.eqb_spec c ",") as [->|Hc]; [reflexivity|].
  assert (Ascii.eqb "," c = false) as -> by (apply Ascii.eqb_neq; congruence).
  reflexivity.
Qed.

Lemma unesc_esc_char (c : ascii) (t : string) :
  unesc (esc_char c ++ t) = String c (unesc t).
Proof.
  unfold esc_char.
  destruct (Ascii.eqb_spec c backslash) as [->|Hb]; [reflexivity|].
  destruct (Ascii.eqb_spec c ";") as [->|Hs]; [reflexivity|].
  destruct (Ascii.eqb_spec c ",") as [->|Hc]; [reflexivity|].
  cbn [append unesc].
  apply Ascii.eqb_neq in Hb. now rewrite Hb.
Qed.

Lemma unesc_expand (s : string) : unesc (expand esc_char s) = s.
Proof.
  induction s as [|c s IH]; [reflexivity|].
  cbn [expand]. now rewrite unesc_esc_char, IH.
Qed.

(** C3.  [esc] is the composition of the three replacements, backslash first,
    then semicolon, then comma; and unescaping an escaped ssid or password
    gives the original string back, whatever characters it holds. *)
Theorem esc_reversible :
  forall s : string,
    esc (PStr s)
    = replace (String "," EmptyString) (String backslash ",")
        (replace (String ";" EmptyString) (String backslash ";")
           (replace (String backslash EmptyString)
                    (String backslash (String backslash EmptyString)) s))
    /\ unesc (esc (PStr s)) = s.
Proof.
  intros s. split.
  - unfold esc. now rewrite or_str_PStr.
  - rewrite esc_by_char. apply unesc_expand.
Qed.

Example esc_mixed :
  esc (PStr (String "a" (String ";" (String backslash ",b"))))
  = String "a" (String backslash (String ";" (String backslash
      (String backslash (String backslash ",b"))))).
Proof. reflexivity. Qed.

(** *** Wi-Fi: the authentication token *)

Example wifi_token_bogus : wifi_token (PStr "bogus") = "WPA".
Proof. reflexivity. Qed.

Example wifi_token_lower_wep : wifi_token (PStr "wep") = "WEP".
Proof. reflexivity. Qed.

(** C2, as the claim states it, fails: the recognised input [wpa2] is emitted
    as the token [WPA2], which is none of [WEP], [WPA] and [nopass]. *)
Lemma wifi_token_wpa2_passes_through :
  wifi_token (PStr "wpa2") = "WPA2"
  /\ wifi_token (PStr "wpa2") <> "WPA"
  /\ wifi_token (PStr "wpa2") <> "WEP"
  /\ wifi_token (PStr "wpa2") <> "nopass"
  /\ build_wifi_payload (PStr "Home") (PStr "pw123") (PStr "wpa2") false
     = "WIFI:T:WPA2;S:Home;P:pw123;H:false;;".
Proof. repeat split; try reflexivity; discriminate. Qed.

(** C2, amended.  The token after [T:] is one of [WEP], [WPA], [WPA2] and
    [nopass].  With [u] the upper-cased input ([NOPASS] when the input is
    [None] or empty): [WEP], [WPA] and [WPA2] are emitted as they are,
    [NOPASS] as [nopass], and anything else as [WPA]. *)
Theorem wifi_token_normalized :
  forall auth : value,
    let u := upper (or_str auth "nopass") in
    let t := wifi_token auth in
    (t = "WEP" \/ t = "WPA" \/ t = "WPA2" \/ t = "nopass")
    /\ (truthy auth = false -> t = "nopass")
    /\ (u = "WEP" -> t = "WEP")
    /\ (u = "WPA" -> t = "WPA")
    /\ (u = "WPA2" -> t = "WPA2")
    /\ (u = "NOPASS" -> t = "nopass")
    /\ (u <> "WEP" -> u <> "WPA" -> u <> "WPA2" -> u <> "NOPASS" -> t = "WPA").
Proof.
  intros auth u t.
  assert (Hfalsy : truthy auth = false -> u = "NOPASS").
  { subst u. destruct auth as [|[|c s]]; simpl; intros H;
      [reflexivity | reflexivity | discriminate]. }
  assert (Ht : t = if String.eqb u "WEP" then "WEP"
                   else if String.eqb u "WPA" then "WPA"
                   else if String.eqb u "WPA2" then "WPA2"
                   else if String.eqb u "NOPASS" then "nopass" else "WPA").
  { subst t. unfold wifi_token, wifi_auth, in_set. fold u. cbn [existsb].
    destruct (String.eqb_spec u "WEP") as [->|]; [reflexivity|].
    destruct (String.eqb_spec u "WPA") as [->|]; [reflexivity|].
    destruct (String.eqb_spec u "WPA2") as [->|]; [reflexivity|].
    destruct (String.eqb_spec u "NOPASS") as [->|]; reflexivity. }
  clearbody u t. subst t.
  repeat apply conj.
  - destruct (String.eqb_spec u "WEP"); [now left|].
    destruct (String.eqb_spec u "WPA"); [now right; left|].
    destruct (String.eqb_spec u "WPA2"); [now right; right; left|].
    destruct (String.eqb_spec u "NOPASS"); [now right; right; right|].
    now right; left.
  - intros H. now rewrite (Hfalsy H).
  - now intros ->.
  - now intros ->.
  - now intros ->.
  - now intros ->.
  - intros H1 H2 H3 H4.
    destruct (String.eqb_spec u "WEP"); [contradiction|].
    destruct (String.eqb_spec u "WPA"); [contradiction|].
    destruct (String.eqb_spec u "WPA2"); [contradiction|].
    destruct (String.eqb_spec u "NOPASS"); [contradiction|reflexivity].
Qed.

Lemma wifi_token_normalized_witness :
  wifi_token (PStr "Wpa2") = "WPA2"
  /\ wifi_token (PStr "nopass") = "nopass"
  /\ wifi_token PNone = "nopass"
  /\ wifi_token (PStr "bogus") = "WPA".
Proof.
  repeat apply conj.
  - apply (wifi_token_normalized (PStr "Wpa2")). reflexivity.
  - apply (wifi_token_normalized (PStr "nopass")). reflexivity.
  - apply (wifi_token_normalized PNone). reflexivity.
  - apply (wifi_token_normalized (PStr "bogus")); discriminate.
Defined.

(** *** Wi-Fi: the whole payload *)

(** C8.  The payload of the Home network: [NOPASS] is emitted as [nopass],
    the password field stays, and [hidden = False] reads [false]; the same
    shape holds for every ssid and password under [NOPASS]. *)
Theorem wifi_payload_home :
  build_wifi_payload (PStr "Home") (PStr "pw123") (PStr "NOPASS") false
  = "WIFI:T:nopass;S:Home;P:pw123;H:false;;"
  /\ forall ssid password : value,
       build_wifi_payload ssid password (PStr "NOPASS") false
       = "WIFI:T:nopass;S:" ++ esc ssid ++ ";P:" ++ esc password
           ++ ";H:false;;".
Proof. split; reflexivity. Qed.

(** *** [None] in place of a string *)

Lemma or_str_None_empty (d : string) :
  or_str PNone d = or_str (PStr EmptyString) d.
Proof. reflexivity. Qed.

(** [or] with a string default yields a string. *)
Lemma py_or_str (v : value) (d : string) :
  py_or v (PStr d) = PStr (or_str v d).
Proof. now destruct v as [|[|c s]]. Qed.

Example replace_on_None :
  method_replace PNone bs_n bs_bs_n = None.
Proof. reflexivity. Qed.

(** C10.  In the arguments guarded by [x or ''], [None] gives the output of
    the empty string: ssid and password of [build_wifi_payload], the message
    of [build_sms], summary, location and description of [build_vevent].  The
    formatters are total, each call returns a string: the receiver of every
    [replace] call is the guarded value, a string, so the call does not
    raise. *)
Theorem none_as_empty_string :
  (forall (v : value) (old new : string),
      method_replace (py_or v (PStr EmptyString)) old new
      = Some (replace old new (or_str v EmptyString)))
  /\ (forall (ssid password auth : value) (hidden : bool),
      build_wifi_payload PNone password auth hidden
      = build_wifi_payload (PStr EmptyString) password auth hidden
      /\ build_wifi_payload ssid PNone auth hidden
         = build_wifi_payload ssid (PStr EmptyString) auth hidden)
  /\ (forall number : string,
        build_sms number PNone = build_sms number (PStr EmptyString))
  /\ (forall (summary location desc : value) (start_dt end_dt : datetime),
        build_vevent PNone start_dt end_dt location desc
        = build_vevent (PStr EmptyString) start_dt end_dt location desc
        /\ build_vevent summary start_dt end_dt PNone desc
           = build_vevent summary start_dt end_dt (PStr EmptyString) desc
        /\ build_vevent summary start_dt end_dt location PNone
           = build_vevent summary start_dt end_dt location (PStr EmptyString)).
Proof.
  split; [|repeat split].
  intros v old new. now rewrite py_or_str.
Qed.

Example sms_none : build_sms "5551234" PNone = "SMSTO:5551234:".
Proof. reflexivity. Qed.

Example tel_number : build_tel "+15551234567" = "tel:+15551234567".
Proof. reflexivity. Qed.

Example fmt_dt_padded :
  _fmt_dt (mk_datetime 2024 1 2 9 0 5) = "20240102T090005".
Proof. reflexivity. Qed.

(** *** Calendar event: the description line *)

(** The [replace] call of the description rewrites no line feed: the pattern
    and the replacement hold none.  Proved for a string and for the same
    string with one more character in front, so that the induction covers the
    two-character pattern. *)
Lemma replace_bs_n_count (s : string) :
  count LF (replace bs_n bs_bs_n s) = count LF s
  /\ forall c, count LF (replace bs_n bs_bs_n (String c s))
               = count LF (String c s).
Proof.
  unfold replace, bs_n, bs_bs_n.
  induction s as [|d s [IH1 IH2]].
  - split; [reflexivity|]. intros c.
    cbn [replace_from String.prefix].
    destruct (ascii_dec backslash c); reflexivity.
  - split; [apply IH2|]. intros c.
    cbn [replace_from String.prefix String.length Nat.sub].
    destruct (ascii_dec backslash c) as [<-|Hc].
    + destruct (ascii_dec "n" d) as [<-|Hd].
      * rewrite prefix_nil, count_app, IH1. reflexivity.
      * change (count LF (String backslash
                  (replace_from (String backslash "n")
                     (String backslash (String backslash "n")) 0 (String d s)))
                = count LF (String backslash (String d s))).
        cbn [count]. rewrite IH2. reflexivity.
    + change (count LF (String c
                (replace_from (String backslash "n")
                   (String backslash (String backslash "n")) 0 (String d s)))
              = count LF (String c (String d s))).
      cbn [count]. rewrite IH2. reflexivity.
Qed.

(** C1: what the code does with a description.  Every line feed of the
    description is still in the emitted [DESCRIPTION] line, so a description
    with an embedded newline is emitted with a raw line break; the only
    rewriting is of the two characters backslash, [n], which get one more
    backslash. *)
Theorem description_keeps_line_feeds :
  (forall desc : string,
      count LF (description_line (PStr desc)) = count LF desc)
  /\ description_line (PStr (String "a" (String LF "b")))
     = "DESCRIPTION:" ++ String "a" (String LF "b")
  /\ description_line (PStr (String "a" (String backslash "nb")))
     = "DESCRIPTION:" ++ String "a" (String backslash (String backslash "nb")).
Proof.
  split; [|split; reflexivity].
  intros desc. unfold description_line.
  rewrite or_str_PStr, count_app.
  rewrite (proj1 (replace_bs_n_count desc)). reflexivity.
Qed.

(** *** vCard *)

Lemma append_if_optional (lines : list string) (label field : string) :
  append_if lines label field = List.app lines (optional_line label field).
Proof.
  unfold append_if, optional_line.
  destruct (nonempty field); [reflexivity | now rewrite app_nil_r].
Qed.

Lemma rstrip_keep (c : ascii) (s : string) :
  isspace c = false -> rstrip (String c s) = String c (rstrip s).
Proof. intros H. cbn [rstrip]. rewrite H. now destruct (rstrip s). Qed.

(** [strip] on the whole [FN] line only trims its end: the line starts with
    the letter F. *)
Lemma strip_fn_line (v : string) : strip ("FN:" ++ v) = "FN:" ++ rstrip v.
Proof.
  unfold strip. cbn [append lstrip].
  change (isspace "F") with false. cbv iota.
  now rewrite !rstrip_keep by reflexivity.
Qed.

(** The lines of a vCard, in their order. *)
Lemma vcard_lines_shape (given family phone email org title url : string) :
  vcard_lines given family phone email org title url
  = List.app
      [ "BEGIN:VCARD"; "VERSION:3.0";
        "N:" ++ family ++ ";" ++ given ++ ";;;";
        "FN:" ++ rstrip (given ++ " " ++ family) ]
      (List.app (optional_line "ORG:" org)
      (List.app (optional_line "TITLE:" title)
      (List.app (optional_line "TEL;TYPE=CELL:" phone)
      (List.app (optional_line "EMAIL;TYPE=INTERNET:" email)
      (List.app (optional_line "URL:" url)
                ["END:VCARD"]))))).
Proof.
  unfold vcard_lines. rewrite !append_if_optional, strip_fn_line.
  now rewrite <- !app_assoc.
Qed.

(** C4: what the code does.  The block has the lines of the claim in the
    claimed order, but [strip] is applied to the whole [FN] line, so the value
    after [FN:] is trimmed at its end only: with an empty given name the line
    reads [FN: Smith], while the trimmed value is [Smith]. *)
Theorem vcard_fn_value_not_trimmed :
  (forall given family phone email org title url : string,
      build_vcard given family phone email org title url
      = join (String LF EmptyString)
          (List.app
             [ "BEGIN:VCARD"; "VERSION:3.0";
               "N:" ++ family ++ ";" ++ given ++ ";;;";
               "FN:" ++ rstrip (given ++ " " ++ family) ]
             (List.app (optional_line "ORG:" org)
             (List.app (optional_line "TITLE:" title)
             (List.app (optional_line "TEL;TYPE=CELL:" phone)
             (List.app (optional_line "EMAIL;TYPE=INTERNET:" email)
             (List.app (optional_line "URL:" url)
                       ["END:VCARD"])))))))
  /\ build_vcard EmptyString "Smith" EmptyString EmptyString EmptyString
       EmptyString EmptyString
     = join (String LF EmptyString)
         [ "BEGIN:VCARD"; "VERSION:3.0"; "N:Smith;;;;"; "FN: Smith";
           "END:VCARD" ]
  /\ strip (EmptyString ++ " " ++ "Smith") = "Smith".
Proof.
  split; [|split; reflexivity].
  intros. unfold build_vcard. now rewrite vcard_lines_shape.
Qed.

Example vcard_full :
  build_vcard "Ada" "Byron" "555" "a@b.c" "Org" "Dr" "http://x"
  = join (String LF EmptyString)
      [ "BEGIN:VCARD"; "VERSION:3.0"; "N:Byron;Ada;;;"; "FN:Ada Byron";
        "ORG:Org"; "TITLE:Dr"; "TEL;TYPE=CELL:555";
        "EMAIL;TYPE=INTERNET:a@b.c"; "URL:http://x"; "END:VCARD" ].
Proof. reflexivity. Qed.

Example vcard_no_family :
  vcard_lines "Ada" EmptyString EmptyString EmptyString EmptyString
    EmptyString EmptyString
  = [ "BEGIN:VCARD"; "VERSION:3.0"; "N:;Ada;;;"; "FN:Ada"; "END:VCARD" ].
Proof. reflexivity. Qed.

(** *** Determinism *)



End FormatterSpec.

(* ================================================================== *)
(** ** Properties of the logo overlay *)
(* ================================================================== *)

Module CompositorSpec.
Import Compositor.

(** *** The circular mask *)

Lemma nth_error_map_seq {A : Type} (f : nat -> A) (n i : nat) :
  i < n -> nth_error (map f (seq 0 n)) i = Some (f i).
Proof.
  intros H. rewrite nth_error_map, nth_error_seq.
  apply Nat.ltb_lt in H. now rewrite H.
Qed.

Lemma mask_at_mask_np (w h x y : nat) :
  x < w -> y < h ->
  mask_at (mask_np w h) x y = Some (if circle w h x y then 255%Z else 0%Z).
Proof.
  intros Hx Hy. unfold mask_at, mask_np.
  rewrite (nth_error_map_seq _ h y Hy).
  now rewrite (nth_error_map_seq _ w x Hx).
Qed.


(** The radius is the smaller of the two half-lengths. *)
Lemma radius_cases (w h : nat) :
  (radius w h = centerx w /\ (Z.of_nat w - 1 <= Z.of_nat h - 1)%Z)
  \/ (radius w h = centery h /\ (Z.of_nat h - 1 <= Z.of_nat w - 1)%Z).
Proof.
  unfold radius, Qmin, GenericMinMax.gmin.
  destruct (Qcompare (centerx w) (centery h)) eqn:E; [left|left|right];
    (split; [reflexivity|]).
  - apply Qeq_alt in E. unfold centerx, centery, Qeq in E. cbn in E. lia.
  - apply Qlt_alt in E. unfold centerx, centery, Qlt in E. cbn in E. lia.
  - apply Qgt_alt in E. unfold centerx, centery, Qlt in E. cbn in E. lia.
Qed.

(** The test of [circle] in integers: all lengths doubled. *)
Lemma circle_int (w h x y : nat) :
  circle w h x y
  = ((2 * Z.of_nat x - (Z.of_nat w - 1)) ^ 2
     + (2 * Z.of_nat y - (Z.of_nat h - 1)) ^ 2
     <=? Z.min (Z.of_nat w - 1) (Z.of_nat h - 1) ^ 2)%Z.
Proof.
  apply Bool.eq_true_iff_eq. unfold circle.
  rewrite Qle_bool_iff, Z.leb_le, !Z.pow_2_r.
  destruct (radius_cases w h) as [[-> H]|[-> H]].
  - rewrite Z.min_l by exact H.
    unfold centerx, centery, Qle.
    cbn -[Z.mul Z.add Z.sub Z.opp Z.of_nat]. lia.
  - rewrite Z.min_r by exact H.
    unfold centerx, centery, Qle.
    cbn -[Z.mul Z.add Z.sub Z.opp Z.of_nat]. lia.
Qed.








Example red3_masked :
  rows (putalpha red3 (mask_np 3 3))
  = [ [set_alpha opaque_red 0; opaque_red; set_alpha opaque_red 0];
      [opaque_red; opaque_red; opaque_red];
      [set_alpha opaque_red 0; opaque_red; set_alpha opaque_red 0] ].
Proof. reflexivity. Qed.

(** *** Failure of the overlay *)

Section OverlayFacts.

Variable upload : Type.
Variable image_open : upload -> result image.
Variable import_numpy : result unit.
Variable resize : image -> Z * Z -> result image.
Variable alpha_composite : image -> image -> Z * Z -> result image.

Local Abbreviation logo_steps' :=
  (logo_steps image_open import_numpy resize alpha_composite).
Local Abbreviation logo_failure' :=
  (logo_failure image_open import_numpy resize alpha_composite).
Local Abbreviation overlay' :=
  (overlay image_open import_numpy resize alpha_composite).

(** The [try] body raises exactly when one of its steps does. *)
Lemma logo_steps_raise (opts : options upload) (preview_img : image)
    (file : upload) (e : exn) :
  logo_failure' opts preview_img file e
  <-> logo_steps' opts preview_img file = Raise e.
Proof.
  unfold logo_steps. split.
  - intros Hf. destruct Hf;
      repeat match goal with
             | H : _ = _ |- _ => rewrite H; clear H; cbn [bind]
             end; reflexivity.
  - destruct (image_open file) as [o|e1] eqn:H1; cbn [bind];
      [|intros [= ->]; now apply decoding_fails].
    destruct (masked import_numpy opts o) as [l|e2] eqn:H2; cbn [bind];
      [|intros [= ->]; now apply masking_fails with o].
    destruct (logo_target opts preview_img l) as [sz|e3] eqn:H3;
      cbn [bind]; [|intros [= ->]; now apply sizing_fails with o l].
    destruct (resize l sz) as [r|e4] eqn:H4; cbn [bind];
      [|intros [= ->]; now apply resizing_fails with o l sz].
    intros H5. now apply compositing_fails with o l r sz.
Qed.

Lemma overlay_on_success (opts : options upload) (preview_img : image)
    (file : upload) (composited : image) :
  logo opts = Some file ->
  logo_steps' opts preview_img file = Ok composited ->
  overlay' opts preview_img = (composited, []).
Proof. intros Hl Hs. unfold overlay. now rewrite Hl, Hs. Qed.

End OverlayFacts.

(** C5.  When a logo was uploaded and a step of the overlay raises (opening
    or decoding the file, masking, sizing, resizing, compositing), the block
    ends with the base raster it started with and one informational message;
    [overlay] returns, the exception goes no further. *)
Theorem logo_failure_keeps_base :
  forall (upload : Type)
         (image_open : upload -> result image)
         (import_numpy : result unit)
         (resize : image -> Z * Z -> result image)
         (alpha_composite : image -> image -> Z * Z -> result image)
         (opts : options upload) (preview_img : image) (file : upload)
         (e : exn),
    logo opts = Some file ->
    logo_failure image_open import_numpy resize alpha_composite
      opts preview_img file e ->
    overlay image_open import_numpy resize alpha_composite opts preview_img
    = (preview_img, [Info "Logo overlay failed; continuing without logo."]).
Proof.
  intros upload image_open import_numpy resize alpha_composite
    opts preview_img file e Hlogo Hfail.
  apply logo_steps_raise in Hfail.
  unfold overlay. rewrite Hlogo, Hfail. reflexivity.
Qed.

Lemma logo_failure_keeps_base_witness :
  overlay reject_all (Ok tt) (fun img _ => Ok img)
    (fun base _ _ => Ok base)
    (mk_options (Some "logo.png") (float_of_int 1) true) red3
  = (red3, [Info "Logo overlay failed; continuing without logo."]).
Proof.
  apply (logo_failure_keeps_base string reject_all (Ok tt)
           (fun img _ => Ok img) (fun base _ _ => Ok base)
           (mk_options (Some "logo.png") (float_of_int 1) true) red3
           "logo.png" (LibraryError "cannot identify image file")).
  - reflexivity.
  - apply decoding_fails. reflexivity.
Defined.

(** *** The target size: binary64 arithmetic *)

Section Binary64.
Local Open Scope Z_scope.

Lemma digits2_pos_iter_xO (p k : positive) :
  digits2_pos (Pos.iter xO p k) = (digits2_pos p + k)%positive.
Proof.
  induction k as [|k IH] using Pos.peano_ind.
  - cbn. lia.
  - rewrite Pos.iter_succ. cbn [digits2_pos]. rewrite IH. lia.
Qed.

Lemma digits2_pos_bound (p : positive) :
  2 ^ (Zpos (digits2_pos p) - 1) <= Zpos p < 2 ^ Zpos (digits2_pos p).
Proof.
  induction p as [p IH|p IH|]; cbn [digits2_pos].
  - rewrite Pos2Z.inj_succ, (Pos2Z.inj_xI p).
    replace (Z.succ (Zpos (digits2_pos p)) - 1)
      with (Z.succ (Zpos (digits2_pos p) - 1)) by lia.
    rewrite !Z.pow_succ_r by lia. lia.
  - rewrite Pos2Z.inj_succ, (Pos2Z.inj_xO p).
    replace (Z.succ (Zpos (digits2_pos p)) - 1)
      with (Z.succ (Zpos (digits2_pos p) - 1)) by lia.
    rewrite !Z.pow_succ_r by lia. lia.
  - cbn. lia.
Qed.

Lemma fexp_normal (x : Z) : -1021 <= x -> fexp prec emax x = x - 53.
Proof. intros H. unfold fexp, SpecFloat.emin, prec, emax. lia. Qed.

Lemma shr_fexp_canonical (m : positive) (e : Z) :
  digits2_pos m = 53%positive -> -1074 <= e ->
  shr_fexp prec emax (Zpos m) e loc_Exact
  = ({| shr_m := Zpos m; shr_r := false; shr_s := false |}, e).
Proof.
  intros Hd He. unfold shr_fexp. cbn [Zdigits2 shr_record_of_loc].
  rewrite Hd, fexp_normal by lia.
  replace (53 + e - 53 - e) with 0 by lia. reflexivity.
Qed.

Lemma round_canonical (s : bool) (m : positive) (e : Z) :
  digits2_pos m = 53%positive -> -1074 <= e <= 971 ->
  binary_round_aux prec emax s (Zpos m) e loc_Exact = S754_finite s m e.
Proof.
  intros Hd He. unfold binary_round_aux.
  rewrite shr_fexp_canonical by (assumption || lia).
  cbn [shr_m loc_of_shr_record round_nearest_even].
  rewrite shr_fexp_canonical by (assumption || lia).
  cbn [shr_m]. unfold emax, prec.
  destruct (Z.leb_spec e (1024 - 53)); [reflexivity | lia].
Qed.

(** Conversion of a positive integer below 2^53: exact. *)
Lemma float_of_int_pos (p : positive) :
  Zpos p < 2 ^ 53 ->
  float_of_int (Zpos p)
  = S754_finite false
      (Pos.shiftl p (Z.to_N (53 - Zpos (digits2_pos p))))
      (Zpos (digits2_pos p) - 53).
Proof.
  intros Hp.
  assert (Hd : Zpos (digits2_pos p) <= 53).
  { pose proof (digits2_pos_bound p) as [Hlo _].
    destruct (Z.le_gt_cases (Zpos (digits2_pos p)) 53) as [|Hgt]; [assumption|].
    assert (2 ^ 53 <= 2 ^ (Zpos (digits2_pos p) - 1))
      by (apply Z.pow_le_mono_r; lia).
    lia. }
  unfold float_of_int, binary_normalize, binary_round.
  rewrite fexp_normal by lia.
  unfold shl_align.
  replace (Zpos (digits2_pos p) + 0 - 53 - 0) with (Zpos (digits2_pos p) - 53) by lia.
  replace (Zpos (digits2_pos p) + 0 - 53) with (Zpos (digits2_pos p) - 53) by lia.
  destruct (Zpos (digits2_pos p) - 53) as [|k|k] eqn:Ek.
  - replace (53 - Zpos (digits2_pos p)) with 0 by lia. cbn [Z.to_N Pos.shiftl].
    apply round_canonical; lia.
  - lia.
  - replace (53 - Zpos (digits2_pos p)) with (Zpos k) by lia.
    cbn [Z.to_N Pos.shiftl].
    apply round_canonical; [|lia].
    rewrite digits2_pos_iter_xO. lia.
Qed.

Lemma div_eucl_exact (a b : Z) : 0 < b -> Z.div_eucl (a * b) b = (a, 0).
Proof.
  intros Hb.
  pose proof (Z.div_mul a b ltac:(lia)) as Hq.
  pose proof (Z.mod_mul a b ltac:(lia)) as Hr.
  unfold Z.div, Z.modulo in Hq, Hr.
  destruct (Z.div_eucl (a * b) b) as [q r]. now subst.
Qed.



Lemma Zpos_iter_xO (p k : positive) :
  Zpos (Pos.iter xO p k) = Zpos p * 2 ^ Zpos k.
Proof.
  induction k as [|k IH] using Pos.peano_ind.
  - cbn [Pos.iter]. rewrite (Pos2Z.inj_xO p). change (2 ^ 1) with 2. lia.
  - rewrite Pos.iter_succ, (Pos2Z.inj_xO (Pos.iter xO p k)), IH.
    rewrite Pos2Z.inj_succ, Z.pow_succ_r by lia. ring.
Qed.

Lemma Zpos_shiftl (p : positive) (n : N) :
  Zpos (Pos.shiftl p n) = Zpos p * 2 ^ Z.of_N n.
Proof.
  destruct n as [|k]; cbn [Pos.shiftl Z.of_N].
  - change (2 ^ 0) with 1. lia.
  - apply Zpos_iter_xO.
Qed.





End Binary64.




End CompositorSpec.

(* ================================================================== *)
(** ** Further properties of the payload formatters *)
(* ================================================================== *)

Module FormatterMore.
Import Py PyFacts Formatter FormatterSpec Script.

(** *** Wi-Fi: the payload determines the credentials *)

Lemma esc_value (v : value) : esc v = expand esc_char (or_str v EmptyString).
Proof.
  rewrite <- esc_by_char. unfold esc. now rewrite or_str_PStr.
Qed.

(** The escaped form of a character is recognised at the head of a text. *)
Lemma esc_char_head (c d : ascii) (x y : string) :
  esc_char c ++ x = esc_char d ++ y -> c = d /\ x = y.
Proof.
  unfold esc_char.
  destruct (Ascii.eqb_spec c backslash) as [->|Hc1];
  [|destruct (Ascii.eqb_spec c ";") as [->|Hc2];
    [|destruct (Ascii.eqb_spec c ",") as [->|Hc3]]];
  (destruct (Ascii.eqb_spec d backslash) as [->|Hd1];
   [|destruct (Ascii.eqb_spec d ";") as [->|Hd2];
     [|destruct (Ascii.eqb_spec d ",") as [->|Hd3]]]);
  cbn [append]; intros H; inversion H; subst;
  try contradiction; try congruence; auto.
Qed.

(** An escaped field ends at the first semicolon that no backslash quotes. *)
Lemma esc_field_end (a b r1 r2 : string) :
  expand esc_char a ++ String ";" r1 = expand esc_char b ++ String ";" r2 ->
  a = b /\ r1 = r2.
Proof.
  revert b. induction a as [|c a IH]; intros [|d b]; cbn [expand append].
  - intros [= ->]. auto.
  - unfold esc_char.
    destruct (Ascii.eqb_spec d backslash) as [->|Hd1];
      [discriminate|].
    destruct (Ascii.eqb_spec d ";") as [->|Hd2]; [discriminate|].
    destruct (Ascii.eqb_spec d ",") as [->|Hd3]; [discriminate|].
    cbn [append]. intros [= E _]. congruence.
  - unfold esc_char.
    destruct (Ascii.eqb_spec c backslash) as [->|Hc1];
      [discriminate|].
    destruct (Ascii.eqb_spec c ";") as [->|Hc2]; [discriminate|].
    destruct (Ascii.eqb_spec c ",") as [->|Hc3]; [discriminate|].
    cbn [append]. intros [= E _]. congruence.
  - rewrite !append_assoc. intros H.
    apply esc_char_head in H as [-> H].
    apply IH in H as [-> ->]. auto.
Qed.

Lemma wifi_token_cases (auth : value) :
  wifi_token auth = "WEP" \/ wifi_token auth = "WPA"
  \/ wifi_token auth = "WPA2" \/ wifi_token auth = "nopass".
Proof.
  unfold wifi_token, wifi_auth, in_set. cbn [existsb].
  set (u := upper (or_str auth "nopass")).
  destruct (String.eqb_spec u "WEP") as [->|]; [now left|].
  destruct (String.eqb_spec u "WPA") as [->|]; [now right; left|].
  destruct (String.eqb_spec u "WPA2") as [->|]; [now right; right; left|].
  destruct (String.eqb_spec u "NOPASS") as [->|]; [now right; right; right|].
  now right; left.
Qed.

(** X1.  Two Wi-Fi payloads are equal only if they carry the same token, the
    same ssid, the same password and the same hidden flag: the escaping keeps
    the fields apart, whatever separators the ssid and the password hold. *)
Theorem wifi_payload_injective :
  forall (ssid1 password1 auth1 ssid2 password2 auth2 : value)
         (hidden1 hidden2 : bool),
    build_wifi_payload ssid1 password1 auth1 hidden1
    = build_wifi_payload ssid2 password2 auth2 hidden2 ->
    wifi_token auth1 = wifi_token auth2
    /\ or_str ssid1 EmptyString = or_str ssid2 EmptyString
    /\ or_str password1 EmptyString = or_str password2 EmptyString
    /\ hidden1 = hidden2.
Proof.
  intros ssid1 password1 auth1 ssid2 password2 auth2 hidden1 hidden2.
  unfold build_wifi_payload. rewrite !esc_value.
  set (s1 := expand esc_char (or_str ssid1 EmptyString)).
  set (s2 := expand esc_char (or_str ssid2 EmptyString)).
  set (p1 := expand esc_char (or_str password1 EmptyString)).
  set (p2 := expand esc_char (or_str password2 EmptyString)).
  intros H.
  assert (Ht : wifi_token auth1 = wifi_token auth2
               /\ s1 ++ ";P:" ++ p1 ++ ";H:"
                    ++ (if hidden1 then "true" else "false") ++ ";;"
                  = s2 ++ ";P:" ++ p2 ++ ";H:"
                    ++ (if hidden2 then "true" else "false") ++ ";;").
  { destruct (wifi_token_cases auth1) as [E1|[E1|[E1|E1]]];
    destruct (wifi_token_cases auth2) as [E2|[E2|[E2|E2]]];
    rewrite E1, E2 in H |- *; cbn [append] in H;
    try discriminate; injection H as H; auto. }
  destruct Ht as [Ht Hrest]. split; [exact Ht|].
  subst s1 s2. cbn [append] in Hrest.
  apply esc_field_end in Hrest as [Hs Hrest].
  split; [exact Hs|].
  injection Hrest as Hrest. subst p1 p2.
  apply esc_field_end in Hrest as [Hp Hrest].
  split; [exact Hp|].
  destruct hidden1, hidden2; try reflexivity; discriminate.
Qed.

Lemma wifi_payload_injective_witness :
  wifi_token (PStr "wpa") = wifi_token (PStr "WPA")
  /\ or_str (PStr "a;b") EmptyString = or_str (PStr "a;b") EmptyString
  /\ or_str PNone EmptyString = or_str (PStr EmptyString) EmptyString
  /\ true = true.
Proof.
  apply (wifi_payload_injective (PStr "a;b") PNone (PStr "wpa")
           (PStr "a;b") (PStr EmptyString) (PStr "WPA") true true).
  reflexivity.
Defined.

(** *** Wi-Fi: what escaping costs *)

Lemma length_append (a b : string) :
  String.length (a ++ b) = String.length a + String.length b.
Proof. induction a as [|x a IH]; cbn; [reflexivity | now rewrite IH]. Qed.

(** X2.  Escaping adds one character for each backslash, semicolon and comma
    of the field and nothing else; a field with none of them is emitted as it
    is. *)
Theorem esc_length :
  forall s : string,
    String.length (esc (PStr s)) = String.length s + specials s
    /\ (specials s = 0 -> esc (PStr s) = s).
Proof.
  intros s. rewrite esc_by_char. unfold specials.
  induction s as [|c s [IHl IHe]]; [split; reflexivity|].
  cbn [expand count String.length]. rewrite length_append, IHl.
  rewrite (Ascii.eqb_sym backslash c), (Ascii.eqb_sym ";" c),
    (Ascii.eqb_sym "," c).
  unfold esc_char.
  destruct (Ascii.eqb_spec c backslash) as [->|H1];
    [cbn; split; [lia | intros; lia]|].
  destruct (Ascii.eqb_spec c ";") as [->|H2];
    [cbn; split; [lia | intros; lia]|].
  destruct (Ascii.eqb_spec c ",") as [->|H3];
    [cbn; split; [lia | intros; lia]|].
  cbn [String.length append]. split; [lia|].
  intros H. f_equal. apply IHe. lia.
Qed.

Lemma esc_length_witness : esc (PStr "MyNetwork") = "MyNetwork".
Proof. apply (esc_length "MyNetwork"). reflexivity. Defined.

(** *** Wi-Fi: the token is a normal form *)

Lemma upper_char_idem (c : ascii) : upper_char (upper_char c) = upper_char c.
Proof.
  destruct c as [b0 b1 b2 b3 b4 b5 b6 b7].
  destruct b0, b1, b2, b3, b4, b5, b6, b7; reflexivity.
Qed.

Lemma upper_idem (s : string) : upper (upper s) = upper s.
Proof.
  induction s as [|c s IH]; [reflexivity|].
  cbn [upper]. now rewrite upper_char_idem, IH.
Qed.

(** X3.  The token does not depend on the case of the input, and a token fed
    back as input is emitted again: normalising twice changes nothing. *)
Theorem wifi_token_stable :
  (forall s : string, wifi_token (PStr (upper s)) = wifi_token (PStr s))
  /\ (forall auth : value,
        wifi_token (PStr (wifi_token auth)) = wifi_token auth).
Proof.
  split.
  - intros s. unfold wifi_token, wifi_auth.
    destruct s as [|c s]; [reflexivity|].
    cbn [upper or_str]. now rewrite upper_char_idem, upper_idem.
  - intros auth.
    destruct (wifi_token_cases auth) as [E|[E|[E|E]]]; rewrite E;
      reflexivity.
Qed.

(** *** SMS: the colon is not escaped *)

(** X4.  [build_sms] writes the number and the message as they are, so a
    colon moves freely between them: the payload does not tell where the
    number ends. *)
Theorem sms_colon_ambiguous :
  forall a b c : string,
    build_sms (a ++ ":" ++ b) (PStr c)
    = build_sms a (PStr (b ++ ":" ++ c)).
Proof.
  intros a b c. unfold build_sms.
  rewrite !or_str_PStr, !append_assoc. reflexivity.
Qed.

(** *** Email: the query string *)

(** X5.  The [mailto:] link has a query string only for a non-empty subject
    or body: both give [?subject=...&body=...], one alone gives its own
    parameter after the question mark, none gives the bare address.  The
    address itself is written as it is, without percent-encoding. *)
Theorem mailto_query :
  forall (quote : string -> string) (email subject body : string),
    build_mailto quote email subject body
    = "mailto:" ++ email
      ++ match nonempty subject, nonempty body with
         | true, true => "?subject=" ++ quote subject ++ "&body=" ++ quote body
         | true, false => "?subject=" ++ quote subject
         | false, true => "?body=" ++ quote body
         | false, false => EmptyString
         end.
Proof.
  intros quote email subject body. unfold build_mailto.
  destruct (nonempty subject), (nonempty body); cbn [List.app join String.concat].
  - now rewrite !append_assoc.
  - reflexivity.
  - reflexivity.
  - reflexivity.
Qed.

(** *** Calendar event: time stamps *)






(** *** Calendar event: line breaks *)

Lemma digit_not_LF (n : nat) : Ascii.eqb LF (digit n) = false.
Proof.
  unfold digit.
  pose proof (Nat.mod_upper_bound n 10 ltac:(lia)) as H.
  destruct (n mod 10) as [|[|[|[|[|[|[|[|[|[|k]]]]]]]]]];
    try reflexivity; lia.
Qed.

Lemma fmt_dt_no_LF (dt : datetime) : count LF (_fmt_dt dt) = 0.
Proof.
  unfold _fmt_dt, pad4, pad2. cbn [append count].
  now rewrite !digit_not_LF.
Qed.

(** X7.  The calendar block has ten line breaks of its own, between its
    eleven lines, and one more for every line feed in the summary, the
    location and the description: none of the three is escaped. *)
Theorem vevent_line_breaks :
  forall (summary location desc : value) (start_dt end_dt : datetime),
    count LF (build_vevent summary start_dt end_dt location desc)
    = 10 + count LF (or_str summary EmptyString)
      + count LF (or_str location EmptyString)
      + count LF (or_str desc EmptyString).
Proof.
  intros summary location desc start_dt end_dt.
  unfold build_vevent, vevent_lines, join, description_line.
  cbn [String.concat]. rewrite !count_app, !fmt_dt_no_LF.
  rewrite (proj1 (replace_bs_n_count (or_str desc EmptyString))).
  cbn [count append]. cbn. lia.
Qed.

End FormatterMore.

(* ================================================================== *)
(** ** Properties of the content builder and of the Generate button *)
(* ================================================================== *)

Module ScriptSpec.
Import Py PyFacts Formatter FormatterSpec Script.

(** *** The Wi-Fi branch *)

(** X8.  For each option of the authentication select box the Wi-Fi branch
    builds a payload, with no [KeyError], whose token is [WPA], [WEP] or
    [nopass]; for [No password] the password field is empty whatever was
    typed before. *)
Theorem wifi_branch_tokens :
  forall (ssid auth password : string) (hidden : bool),
    In auth auth_options ->
    exists token shown : string,
      (token = "WPA" \/ token = "WEP" \/ token = "nopass")
      /\ (auth = "No password" -> token = "nopass" /\ shown = EmptyString)
      /\ (auth <> "No password" -> shown = password)
      /\ wifi_branch ssid auth password hidden
         = Some ("WIFI:T:" ++ token ++ ";S:" ++ esc (PStr ssid)
                 ++ ";P:" ++ esc (PStr shown)
                 ++ ";H:" ++ (if hidden then "true" else "false") ++ ";;").
Proof.
  intros ssid auth password hidden [<-|[<-|[<-|[]]]].
  - exists "WPA", password. repeat apply conj; auto; discriminate.
  - exists "WEP", password. repeat apply conj; auto; discriminate.
  - exists "nopass", EmptyString. repeat apply conj; auto. congruence.
Qed.

Lemma wifi_branch_tokens_witness :
  wifi_branch "Home" "No password" "old secret" false
  = Some "WIFI:T:nopass;S:Home;P:;H:false;;".
Proof.
  destruct (wifi_branch_tokens "Home" "No password" "old secret" false)
    as (token & shown & _ & Hno & _ & H).
  - cbn. auto.
  - destruct (Hno eq_refl) as [-> ->]. exact H.
Defined.

(** *** The blank check *)

Lemma rstrip_nonempty (s : string) :
  nonempty (rstrip s) = negb (all_space s).
Proof.
  induction s as [|c s IH]; [reflexivity|].
  cbn [rstrip all_space].
  destruct (rstrip s) as [|d r].
  - cbn [nonempty] in IH. apply (f_equal negb) in IH.
    rewrite negb_involutive in IH. cbn [negb] in IH. rewrite <- IH.
    rewrite andb_true_r. now destruct (isspace c).
  - cbn [nonempty] in IH. apply (f_equal negb) in IH.
    rewrite negb_involutive in IH. cbn [negb] in IH. rewrite <- IH.
    now rewrite andb_false_r.
Qed.

Lemma lstrip_all_space (s : string) : all_space (lstrip s) = all_space s.
Proof.
  induction s as [|c s IH]; [reflexivity|].
  cbn [lstrip all_space].
  destruct (isspace c) eqn:E; [exact IH|].
  cbn [all_space]. now rewrite E.
Qed.

Lemma has_content_spaces (s : string) :
  has_content (PStr s) = negb (all_space s).
Proof.
  unfold has_content, strip.
  rewrite rstrip_nonempty, lstrip_all_space.
  now destruct s.
Qed.

Lemma has_content_head (c : ascii) (r : string) :
  isspace c = false -> has_content (PStr (String c r)) = true.
Proof.
  intros H. rewrite has_content_spaces. cbn [all_space]. now rewrite H.
Qed.

(** X9.  Only free text can fail the blank check of the Generate button, and
    it fails exactly when it is empty or all white space.  The payload of
    every other content type passes it, also when all its fields are empty:
    each formatter writes its scheme or header first. *)
Theorem blank_check_by_content :
  forall (quote : string -> string) (number : Type)
         (number_str : number -> string) (c : content number)
         (payload : string),
    content_payload quote number_str c = Some payload ->
    has_content (PStr payload)
    = match c with
      | UrlText text => negb (all_space text)
      | _ => true
      end.
Proof.
  intros quote number number_str c payload.
  destruct c; cbn [content_payload].
  - intros [= <-]. apply has_content_spaces.
  - unfold wifi_branch. destruct (dict_get auth_codes auth); [|discriminate].
    intros [= <-]. now apply has_content_head.
  - intros [= <-]. now apply has_content_head.
  - intros [= <-]. now apply has_content_head.
  - intros [= <-]. now apply has_content_head.
  - intros [= <-]. unfold build_geo.
    destruct (nonempty label); now apply has_content_head.
  - intros [= <-]. unfold build_vcard. rewrite vcard_lines_shape.
    cbn [List.app join String.concat append]. now apply has_content_head.
  - intros [= <-]. now apply has_content_head.
Qed.

Lemma blank_check_by_content_witness :
  has_content (PStr (build_tel EmptyString)) = true.
Proof.
  apply (blank_check_by_content (fun s => s) nat (fun _ => "0")
           (Phone EmptyString) (build_tel EmptyString)).
  reflexivity.
Defined.

(** *** The session state *)

Section Clicks.

Variable options : Type.

Lemma generate_holds (payload : value) (opts : options)
    (st : session options) (found : option (string * options)) :
  read_session st = holds found ->
  read_session (fst (fst (generate payload opts st)))
  = holds (last_accepted [(payload, opts)] found).
Proof.
  intros H. unfold generate. cbn [last_accepted].
  destruct payload as [|s]; [exact H|].
  destruct (has_content (PStr s)); [reflexivity | exact H].
Qed.

Lemma clicks_hold (events : list (value * options)) :
  forall (st : session options) (found : option (string * options)),
    read_session st = holds found ->
    read_session (clicks events st) = holds (last_accepted events found).
Proof.
  induction events as [|[payload opts] rest IH]; intros st found H;
    [exact H|].
  cbn [clicks]. 
  replace (last_accepted ((payload, opts) :: rest) found)
    with (last_accepted rest (last_accepted [(payload, opts)] found))
    by (destruct payload; reflexivity).
  apply IH. now apply generate_holds.
Qed.

End Clicks.

(** X10.  After any run of clicks on Generate, starting from an empty
    session, the session holds the payload and the options of the last click
    whose payload had content, or nothing when there was none: a refused
    click changes nothing, a later accepted one replaces both entries, and
    the preview block never finds the payload without its options. *)
Theorem session_holds_last_accepted :
  forall (options : Type) (events : list (value * options)),
    read_session (clicks events empty_session)
    = holds (last_accepted events None)
    /\ read_session (clicks events empty_session) <> KeyError.
Proof.
  intros options events.
  assert (H : read_session (clicks events (@empty_session options))
              = holds (last_accepted events None))
    by (now apply clicks_hold).
  split; [exact H|]. rewrite H.
  destruct (last_accepted events None) as [[p o]|]; discriminate.
Qed.

End ScriptSpec.

(* ================================================================== *)
(** ** Further properties of the logo overlay *)
(* ================================================================== *)

Module CompositorMore.
Import Compositor CompositorSpec Sidebar.

(** *** The paste position *)

(** X11.  The logo is pasted centred to the pixel: the margin on the left is
    the margin on the right or one pixel less, and likewise above and below;
    the offset is negative exactly when the logo is larger than the base
    image in that direction. *)
Theorem paste_centred :
  forall preview_img logo_img : image,
    let W := Z.of_nat (width preview_img) in
    let H := Z.of_nat (height preview_img) in
    let w := Z.of_nat (width logo_img) in
    let h := Z.of_nat (height logo_img) in
    let x := fst (paste_at preview_img logo_img) in
    let y := snd (paste_at preview_img logo_img) in
    (x <= W - w - x <= x + 1)%Z
    /\ (y <= H - h - y <= y + 1)%Z
    /\ ((x < 0)%Z <-> (W < w)%Z)
    /\ ((y < 0)%Z <-> (H < h)%Z).
Proof.
  intros preview_img logo_img W H w h x y.
  subst x y. unfold paste_at. cbn [fst snd]. fold W H w h.
  pose proof (Z.div_mod (W - w) 2 ltac:(lia)).
  pose proof (Z.mod_pos_bound (W - w) 2 ltac:(lia)).
  pose proof (Z.div_mod (H - h) 2 ltac:(lia)).
  pose proof (Z.mod_pos_bound (H - h) 2 ltac:(lia)).
  lia.
Qed.

(** *** The shape of the circular mask *)

(** X12.  The mask is symmetric: mirroring a pixel left to right or top to
    bottom does not change its entry. *)
Theorem mask_symmetric :
  forall w h x y : nat,
    x < w -> y < h ->
    mask_at (mask_np w h) (w - 1 - x) y = mask_at (mask_np w h) x y
    /\ mask_at (mask_np w h) x (h - 1 - y) = mask_at (mask_np w h) x y.
Proof.
  intros w h x y Hx Hy.
  rewrite !mask_at_mask_np by lia.
  rewrite !circle_int, !Z.pow_2_r.
  replace (2 * Z.of_nat (w - 1 - x) - (Z.of_nat w - 1))%Z
    with (- (2 * Z.of_nat x - (Z.of_nat w - 1)))%Z by lia.
  replace (2 * Z.of_nat (h - 1 - y) - (Z.of_nat h - 1))%Z
    with (- (2 * Z.of_nat y - (Z.of_nat h - 1)))%Z by lia.
  rewrite !Z.mul_opp_opp. auto.
Qed.

Lemma mask_symmetric_witness :
  mask_at (mask_np 5 3) (5 - 1 - 1) 2 = mask_at (mask_np 5 3) 1 2
  /\ mask_at (mask_np 5 3) 1 (3 - 1 - 2) = mask_at (mask_np 5 3) 1 2.
Proof. apply (mask_symmetric 5 3 1 2); lia. Defined.

(** X13.  An opaque pixel lies within the radius of the centre along each
    axis, and the radius is half the shorter side less one: a logo that is
    not square is cut to a centred disc across its shorter side, and the
    columns (or rows) beyond it are transparent. *)
Theorem mask_within_shorter_side :
  forall w h x y : nat,
    x < w -> y < h ->
    mask_at (mask_np w h) x y = Some 255%Z ->
    let d := Z.min (Z.of_nat w - 1) (Z.of_nat h - 1) in
    (Z.of_nat w - 1 - d <= 2 * Z.of_nat x <= Z.of_nat w - 1 + d)%Z
    /\ (Z.of_nat h - 1 - d <= 2 * Z.of_nat y <= Z.of_nat h - 1 + d)%Z.
Proof.
  intros w h x y Hx Hy. rewrite mask_at_mask_np by assumption.
  destruct (circle w h x y) eqn:E; [|discriminate]. intros _ d.
  rewrite circle_int, !Z.pow_2_r in E. apply Z.leb_le in E. fold d in E.
  assert (0 <= d)%Z by (subst d; lia).
  set (a := (2 * Z.of_nat x - (Z.of_nat w - 1))%Z) in *.
  set (b := (2 * Z.of_nat y - (Z.of_nat h - 1))%Z) in *.
  assert (a * a <= d * d)%Z by nia.
  assert (b * b <= d * d)%Z by nia.
  assert (- d <= a <= d)%Z by nia.
  assert (- d <= b <= d)%Z by nia.
  subst a b. lia.
Qed.

Lemma mask_within_shorter_side_witness :
  (Z.of_nat 5 - 1 - Z.min (Z.of_nat 5 - 1) (Z.of_nat 3 - 1)
   <= 2 * Z.of_nat 2
   <= Z.of_nat 5 - 1 + Z.min (Z.of_nat 5 - 1) (Z.of_nat 3 - 1))%Z
  /\ (Z.of_nat 3 - 1 - Z.min (Z.of_nat 5 - 1) (Z.of_nat 3 - 1)
      <= 2 * Z.of_nat 0
      <= Z.of_nat 3 - 1 + Z.min (Z.of_nat 5 - 1) (Z.of_nat 3 - 1))%Z.
Proof.
  apply (mask_within_shorter_side 5 3 2 0); [lia | lia | reflexivity].
Defined.

(** X14.  On the border of a square mask the disc touches the edge in one
    point at most: a pixel of the first column or of the first row is opaque
    exactly when it is the middle one, which exists only for an odd side.  For
    an even side the whole border is transparent. *)
Theorem mask_border :
  forall s i : nat,
    i < s ->
    (mask_at (mask_np s s) 0 i = Some 255%Z <-> 2 * i + 1 = s)
    /\ (mask_at (mask_np s s) i 0 = Some 255%Z <-> 2 * i + 1 = s).
Proof.
  intros s i Hi.
  rewrite !mask_at_mask_np by lia.
  rewrite !circle_int, Z.min_id, !Z.pow_2_r.
  change (Z.of_nat 0) with 0%Z.
  set (r := (Z.of_nat s - 1)%Z).
  set (b := (2 * Z.of_nat i - r)%Z).
  assert (Hb : (b = 0)%Z <-> 2 * i + 1 = s) by (subst b r; lia).
  assert (Hsq : ((2 * 0 - r) * (2 * 0 - r) = r * r)%Z) by ring.
  rewrite Hsq.
  assert (Hz : (b * b <= 0 <-> b = 0)%Z) by nia.
  split.
  - destruct (Z.leb_spec (r * r + b * b) (r * r)) as [Hle|Hgt].
    + split; [intros _ | reflexivity]. apply Hb, Hz. lia.
    + split; [discriminate|]. intros E. apply Hb in E. rewrite E in Hgt. lia.
  - destruct (Z.leb_spec (b * b + r * r) (r * r)) as [Hle|Hgt].
    + split; [intros _ | reflexivity]. apply Hb, Hz. lia.
    + split; [discriminate|]. intros E. apply Hb in E. rewrite E in Hgt. lia.
Qed.

Lemma mask_border_witness :
  mask_at (mask_np 5 5) 0 2 = Some 255%Z.
Proof. apply (mask_border 5 2); lia. Defined.

(** *** The target size of square logos *)

Section SquareLogo.
Local Open Scope Z_scope.

Lemma fdiv_one (m : positive) (e : Z) :
  digits2_pos m = 53%positive ->
  fdiv (S754_finite false m e) (S754_finite false m e) = one.
Proof.
  intros Hd. unfold fdiv, SFdiv, SFdiv_core_binary. cbn [Zdigits2 xorb].
  rewrite Hd.
  replace (53 + e - (53 + e)) with 0 by lia.
  replace (e - e) with 0 by lia.
  change (fexp prec emax 0) with (-53).
  change (Z.min (-53) 0) with (-53).
  change (0 - -53) with 53.
  cbv iota.
  rewrite Z.shiftl_mul_pow2 by lia.
  rewrite Z.mul_comm, div_eucl_exact by lia.
  replace (new_location (Zpos m) 0) with loc_Exact
    by (unfold new_location; now destruct (Z.even (Zpos m))).
  reflexivity.
Qed.

Lemma fmul_one (m : positive) (e : Z) :
  digits2_pos m = 53%positive -> -1020 <= e <= 971 ->
  fmul (S754_finite false m e) one = S754_finite false m e.
Proof.
  intros Hd He. unfold fmul, one, SFmul. cbn [xorb].
  rewrite (Pos.mul_comm m). cbn [Pos.mul].
  unfold binary_round_aux at 1. unfold shr_fexp at 1.
  cbn [Zdigits2 digits2_pos shr_record_of_loc]. rewrite Hd.
  cbn [Pos.succ]. rewrite fexp_normal by lia.
  replace (105 + (e + -52) - 53 - (e + -52)) with 52 by lia.
  cbn [shr iter_pos shr_1 orb shr_m loc_of_shr_record round_nearest_even].
  rewrite shr_fexp_canonical by (assumption || lia).
  cbn [shr_m]. unfold emax, prec.
  replace (e + -52 + 52) with e by lia.
  destruct (Z.leb_spec e (1024 - 53)); [reflexivity | lia].
Qed.

Lemma digits_at_most_53 (p : positive) :
  Zpos p < 2 ^ 53 -> Zpos (digits2_pos p) <= 53.
Proof.
  intros Hp. pose proof (digits2_pos_bound p) as [Hlo _].
  destruct (Z.le_gt_cases (Zpos (digits2_pos p)) 53) as [|Hgt]; [assumption|].
  assert (2 ^ 53 <= 2 ^ (Zpos (digits2_pos p) - 1))
    by (apply Z.pow_le_mono_r; lia).
  lia.
Qed.

Lemma digits_shiftl_53 (p : positive) :
  Zpos (digits2_pos p) <= 53 ->
  digits2_pos (Pos.shiftl p (Z.to_N (53 - Zpos (digits2_pos p))))
  = 53%positive.
Proof.
  intros Hd.
  destruct (Z.to_N (53 - Zpos (digits2_pos p))) as [|k] eqn:Ek;
    cbn [Pos.shiftl].
  - lia.
  - rewrite digits2_pos_iter_xO. lia.
Qed.

(** The quotient of the equal sides of a square logo is the float 1.0. *)
Lemma truediv_square (s : Z) : 0 < s < 2 ^ 53 -> truediv s s = Ok one.
Proof.
  intros Hs. unfold truediv.
  destruct (Z.eqb_spec s 0) as [|_]; [lia|].
  destruct s as [|p|p]; try lia.
  rewrite float_of_int_pos by lia.
  f_equal. apply fdiv_one, digits_shiftl_53, digits_at_most_53. lia.
Qed.

Lemma int_of_whole (lw : Z) :
  0 <= lw < 2 ^ 53 -> py_int (fmul (float_of_int lw) one) = Ok lw.
Proof.
  intros Hw. destruct lw as [|p|p]; try lia; [reflexivity|].
  pose proof (digits_at_most_53 p ltac:(lia)) as Hd.
  rewrite float_of_int_pos by lia.
  rewrite fmul_one by (apply digits_shiftl_53; lia) || lia.
  unfold py_int. rewrite Zpos_shiftl.
  replace (Z.of_N (Z.to_N (53 - Zpos (digits2_pos p))))
    with (53 - Zpos (digits2_pos p)) by lia.
  destruct (Z.leb_spec 0 (Zpos (digits2_pos p) - 53)) as [Hge|Hlt].
  - replace (Zpos (digits2_pos p) - 53) with 0 by lia.
    replace (53 - Zpos (digits2_pos p)) with 0 by lia.
    f_equal. change (2 ^ 0) with 1. lia.
  - replace (- (Zpos (digits2_pos p) - 53))
      with (53 - Zpos (digits2_pos p)) by lia.
    f_equal. apply Z.div_mul. apply Z.pow_nonzero; lia.
Qed.

End SquareLogo.

(** X15.  A square logo stays square: resized to the target width W it gets
    the height W, for every side and every width below 2^53. *)
Theorem square_logo_stays_square :
  forall lw s : Z,
    (0 <= lw < 2 ^ 53)%Z -> (0 < s < 2 ^ 53)%Z ->
    target_height lw s s = Ok lw.
Proof.
  intros lw s Hw Hs. unfold target_height.
  rewrite truediv_square by exact Hs. cbn [bind].
  now apply int_of_whole.
Qed.

Lemma square_logo_stays_square_witness : target_height 63 512 512 = Ok 63%Z.
Proof. apply (square_logo_stays_square 63 512); lia. Defined.

(** *** The target width over the range of the slider *)

Lemma in_zrange (lo : Z) (n : nat) (z : Z) :
  (lo <= z < lo + Z.of_nat n)%Z -> In z (zrange lo n).
Proof.
  intros H. unfold zrange. apply in_map_iff.
  exists (Z.to_nat (z - lo)). split; [lia|].
  apply in_seq. lia.
Qed.

Lemma widths_checked :
  forallb (all_near (zrange 1 1000)) (zrange 10 31) = true.
Proof. vm_compute. reflexivity. Qed.

(** X16.  For every position of the logo size slider, 10 to 40, and every
    base raster up to 1000 pixels wide, the target width is the hundredth
    part of width times slider value, rounded down, or one pixel less; it is
    never negative and always smaller than the base width. *)
Theorem slider_target_width :
  forall k base_width : Z,
    (10 <= k <= 40)%Z -> (1 <= base_width <= 1000)%Z ->
    exists lw : Z,
      target_width base_width (logo_scale_of k) = Ok lw
      /\ (base_width * k / 100 - 1 <= lw <= base_width * k / 100)%Z
      /\ (0 <= lw < base_width)%Z.
Proof.
  intros k base_width Hk Hw.
  pose proof widths_checked as H.
  rewrite forallb_forall in H.
  specialize (H k (in_zrange 10 31 k ltac:(lia))).
  unfold all_near in H. rewrite forallb_forall in H.
  specialize (H base_width (in_zrange 1 1000 base_width ltac:(lia))).
  unfold width_near in H.
  destruct (target_width base_width (logo_scale_of k)) as [lw|];
    [|discriminate].
  exists lw. split; [reflexivity|].
  rewrite !andb_true_iff in H. lia.
Qed.

Lemma slider_target_width_witness :
  exists lw : Z,
    target_width 700 (logo_scale_of 35) = Ok lw
    /\ (700 * 35 / 100 - 1 <= lw <= 700 * 35 / 100)%Z
    /\ (0 <= lw < 700)%Z.
Proof. apply (slider_target_width 35 700); lia. Defined.

End CompositorMore.
